(** * Byte-by-byte MIDI parser of embedded_midi (src/parser.rs)

    Shallow embedding of [MidiParser::parse_byte].  A [u8] is a [Z]; the
    parser only ever masks it with [Z.land], so no wrap-around occurs.  The
    mutable [&mut self] receiver is made explicit: [parse_byte] takes the
    parser and returns the updated parser together with its result. *)

From Stdlib Require Import ZArith List Lia.
Import ListNotations.
Open Scope Z_scope.

(** ** Events *)

(** Modelled from the spec: the [MidiEvent] type of the crate root and its
    factory functions [note_on], [note_off] and [controller_change] are not
    under src/.  The spec describes the event as a closed variant with three
    cases, each carrying a channel and two 8-bit parameters, built without
    validation; the [.into()] conversions on the arguments keep the value. *)
Inductive MidiEvent : Type :=
| NoteOn (channel note velocity : Z)
| NoteOff (channel note velocity : Z)
| ControllerChange (channel controller value : Z).

Definition note_on (channel note velocity : Z) : MidiEvent :=
  NoteOn channel note velocity.
Definition note_off (channel note velocity : Z) : MidiEvent :=
  NoteOff channel note velocity.
Definition controller_change (channel controller value : Z) : MidiEvent :=
  ControllerChange channel controller value.

(** ** Parser state (enum MidiParserState) *)

Inductive MidiParserState : Type :=
| Idle
| NoteOnRecvd (channel : Z)
| NoteOnNoteRecvd (channel note : Z)
| NoteOffRecvd (channel : Z)
| NoteOffNoteRecvd (channel note : Z)
| ControlChangeRecvd (channel : Z)
| ControlChangeControllerRecvd (channel controller : Z).

Record MidiParser : Type := mkMidiParser { state : MidiParserState }.

(** [fn is_status_byte(byte: u8) -> bool { byte & 0x80 == 0x80 }] *)
Definition is_status_byte (byte : Z) : bool :=
  Z.land byte 128 =? 128.

(** [fn split_message_and_channel(byte: u8) -> (u8, u8)] *)
Definition split_message_and_channel (byte : Z) : Z * Z :=
  (Z.land byte 240, Z.land byte 15).

(** [MidiParser::new] *)
Definition new : MidiParser := mkMidiParser Idle.

(** [MidiParser::parse_byte]: the new parser and the returned
    [Option<MidiEvent>]. *)
Definition parse_byte (self : MidiParser) (byte : Z)
  : MidiParser * option MidiEvent :=
  if is_status_byte byte then
    let '(message, channel) := split_message_and_channel byte in
    if message =? 128 then (mkMidiParser (NoteOffRecvd channel), None)
    else if message =? 144 then (mkMidiParser (NoteOnRecvd channel), None)
    else if message =? 176 then (mkMidiParser (ControlChangeRecvd channel), None)
    else (self, None)
  else
    match state self with
    | NoteOnRecvd channel =>
        (mkMidiParser (NoteOnNoteRecvd channel byte), None)
    | NoteOnNoteRecvd channel note =>
        (mkMidiParser (NoteOnRecvd channel), Some (note_on channel note byte))
    | NoteOffRecvd channel =>
        (mkMidiParser (NoteOffNoteRecvd channel byte), None)
    | NoteOffNoteRecvd channel note =>
        (mkMidiParser (NoteOffRecvd channel), Some (note_off channel note byte))
    | ControlChangeRecvd channel =>
        (mkMidiParser (ControlChangeControllerRecvd channel byte), None)
    | ControlChangeControllerRecvd channel controller =>
        (mkMidiParser (ControlChangeRecvd channel),
         Some (controller_change channel controller byte))
    | Idle => (self, None)
    end.

(** ** Feeding a byte sequence *)

(** The result of every [parse_byte] call, in order. *)
Fixpoint outputs (p : MidiParser) (bytes : list Z) : list (option MidiEvent) :=
  match bytes with
  | [] => []
  | b :: bs => let '(p', o) := parse_byte p b in o :: outputs p' bs
  end.

(** The final parser and the emitted events, as the test helper
    [assert_result] collects them with [filter_map]. *)
Fixpoint feed (p : MidiParser) (bytes : list Z) : MidiParser * list MidiEvent :=
  match bytes with
  | [] => (p, [])
  | b :: bs =>
      let '(p1, o) := parse_byte p b in
      let '(p2, evs) := feed p1 bs in
      (p2, match o with Some e => e :: evs | None => evs end)
  end.

(** ** Views used to state the properties *)

(** The three message kinds and the two waiting sub-states of each. *)
Inductive Kind : Type := KNoteOn | KNoteOff | KControlChange.

Definition awaiting_first (k : Kind) (c : Z) : MidiParserState :=
  match k with
  | KNoteOn => NoteOnRecvd c
  | KNoteOff => NoteOffRecvd c
  | KControlChange => ControlChangeRecvd c
  end.

Definition awaiting_second (k : Kind) (c p1 : Z) : MidiParserState :=
  match k with
  | KNoteOn => NoteOnNoteRecvd c p1
  | KNoteOff => NoteOffNoteRecvd c p1
  | KControlChange => ControlChangeControllerRecvd c p1
  end.

Definition event_of (k : Kind) (c p1 p2 : Z) : MidiEvent :=
  match k with
  | KNoteOn => note_on c p1 p2
  | KNoteOff => note_off c p1 p2
  | KControlChange => controller_change c p1 p2
  end.

(** The parameter bytes a state holds. *)
Definition stored_params (s : MidiParserState) : list Z :=
  match s with
  | NoteOnNoteRecvd _ n | NoteOffNoteRecvd _ n
  | ControlChangeControllerRecvd _ n => [n]
  | _ => []
  end.

(** The channel a state holds, if any. *)
Definition state_channel (s : MidiParserState) : option Z :=
  match s with
  | Idle => None
  | NoteOnRecvd c | NoteOnNoteRecvd c _ | NoteOffRecvd c
  | NoteOffNoteRecvd c _ | ControlChangeRecvd c
  | ControlChangeControllerRecvd c _ => Some c
  end.

Definition event_channel (e : MidiEvent) : Z :=
  match e with
  | NoteOn c _ _ | NoteOff c _ _ | ControllerChange c _ _ => c
  end.

(** A message-type nibble [parse_byte] starts a message for. *)
Definition supported_message (m : Z) : bool :=
  (m =? 128) || (m =? 144) || (m =? 176).

(** The kind of message a status nibble starts, as the [match message]
    arms of [parse_byte] read it. *)
Definition message_kind (m : Z) : option Kind :=
  if m =? 128 then Some KNoteOff
  else if m =? 144 then Some KNoteOn
  else if m =? 176 then Some KControlChange
  else None.

(** The events of kind [k] on channel [c] that consecutive pairs of
    parameter bytes make; a trailing odd byte makes none. *)
Fixpoint pair_events (k : Kind) (c : Z) (ds : list Z) : list MidiEvent :=
  match ds with
  | d1 :: d2 :: rest => event_of k c d1 d2 :: pair_events k c rest
  | _ => []
  end.

(** A status byte whose nibble falls into the [_ => None] arm. *)
Definition is_ignored_status (b : Z) : bool :=
  is_status_byte b && negb (supported_message (Z.land b 240)).

(** A status byte whose nibble starts a message. *)
Definition is_starting_status (b : Z) : bool :=
  is_status_byte b && supported_message (Z.land b 240).

(** The two parameter bytes an event carries. *)
Definition event_params (e : MidiEvent) : list Z :=
  match e with
  | NoteOn _ a b | NoteOff _ a b | ControllerChange _ a b => [a; b]
  end.

(** Every byte in [0x00, 0xFF]. *)
Definition all_bytes : list Z := map Z.of_nat (seq 0 256).

(** ** Sanity checks on the source's own tests *)

Example parse_note_on_test :
  feed new [145; 4; 52] = (mkMidiParser (NoteOnRecvd 1), [note_on 1 4 52]).
Proof. reflexivity. Qed.

Example control_change_running_state_test :
  snd (feed new [179; 60; 24; 67; 1])
  = [controller_change 3 60 24; controller_change 3 67 1].
Proof. reflexivity. Qed.

Example status_then_status_test :
  snd (feed new [146; 130; 118; 52]) = [note_off 2 118 52].
Proof. reflexivity. Qed.

(** ** Auxiliary lemmas *)

Lemma data_byte_not_status (b : Z) :
  Z.land b 128 = 0 -> is_status_byte b = false.
Proof. intros H. unfold is_status_byte. rewrite H. reflexivity. Qed.

Lemma status_byte_is_status (b : Z) :
  Z.land b 128 = 128 -> is_status_byte b = true.
Proof. intros H. unfold is_status_byte. rewrite H. reflexivity. Qed.

Lemma low_nibble_bound (b : Z) : 0 <= Z.land b 15 <= 15.
Proof.
  replace (Z.land b 15) with (b mod 16)
    by (symmetry; exact (Z.land_ones b 4 ltac:(lia))).
  pose proof (Z.mod_pos_bound b 16) as Hb. lia.
Qed.

(** A status byte [parse_byte] does not start a message for leaves the
    parser as it was. *)
Lemma parse_unsupported_status (p : MidiParser) (b : Z) :
  Z.land b 128 = 128 -> supported_message (Z.land b 240) = false ->
  parse_byte p b = (p, None).
Proof.
  intros Hs Hu. unfold parse_byte. rewrite (status_byte_is_status b Hs).
  unfold supported_message in Hu. simpl.
  destruct (Z.land b 240 =? 128); [discriminate|].
  destruct (Z.land b 240 =? 144); [discriminate|].
  destruct (Z.land b 240 =? 176); [discriminate|].
  reflexivity.
Qed.

(** A status byte never produces an event. *)
Lemma parse_status_none (p : MidiParser) (b : Z) :
  Z.land b 128 = 128 -> snd (parse_byte p b) = None.
Proof.
  intros Hs. unfold parse_byte. rewrite (status_byte_is_status b Hs). simpl.
  destruct (Z.land b 240 =? 128); [reflexivity|].
  destruct (Z.land b 240 =? 144); [reflexivity|].
  destruct (Z.land b 240 =? 176); reflexivity.
Qed.

(** The channel invariant: a state holds a channel in 0..15. *)
Definition channel_ok (p : MidiParser) : Prop :=
  forall c, state_channel (state p) = Some c -> 0 <= c <= 15.

Lemma parse_byte_channel_ok (p : MidiParser) (b : Z) :
  channel_ok p ->
  channel_ok (fst (parse_byte p b)) /\
  (forall e, snd (parse_byte p b) = Some e -> 0 <= event_channel e <= 15).
Proof.
  intros Hp. unfold channel_ok in *. unfold parse_byte.
  pose proof (low_nibble_bound b) as Hb.
  destruct (is_status_byte b).
  - simpl.
    destruct (Z.land b 240 =? 128); [|destruct (Z.land b 240 =? 144);
      [|destruct (Z.land b 240 =? 176)]]; simpl;
      (split; [intros c Hc | intros e He; discriminate]);
      first [injection Hc as <-; exact Hb | exact (Hp c Hc)].
  - destruct (state p) as [| c | c n | c | c n | c | c n] eqn:Es; simpl in *;
      (split; [intros c' Hc'; rewrite ?Es in Hc' | intros e He]);
      first [ discriminate
            | exact (Hp c' Hc')
            | injection Hc' as <-; apply Hp; reflexivity
            | injection He as <-; simpl; apply Hp; reflexivity ].
Qed.

Lemma feed_channel_ok (bytes : list Z) :
  forall p, channel_ok p ->
  channel_ok (fst (feed p bytes)) /\
  Forall (fun e => 0 <= event_channel e <= 15) (snd (feed p bytes)).
Proof.
  induction bytes as [| b bs IH]; intros p Hp; simpl.
  - split; [exact Hp | constructor].
  - destruct (parse_byte p b) as [p1 o] eqn:E.
    pose proof (parse_byte_channel_ok p b Hp) as [H1 He]. rewrite E in H1, He.
    simpl in H1, He.
    destruct (IH p1 H1) as [H2 Hevs].
    destruct (feed p1 bs) as [p2 evs]. simpl in *.
    split; [exact H2|].
    destruct o as [e|]; [constructor; [apply He; reflexivity | exact Hevs] | exact Hevs].
Qed.

(** ** Claims *)

(** C1: in the awaiting-second-parameter state of kind [k], channel [c] and
    first parameter [p1], a data byte [b] yields the event of kind [k] with
    [(c, p1, b)] and moves the parser back to awaiting-first-parameter of
    the same kind and channel (running status), not to [Idle]. *)
Theorem parse_second_param_running_status (k : Kind) (c p1 b : Z) :
  Z.land b 128 = 0 ->
  parse_byte (mkMidiParser (awaiting_second k c p1)) b
  = (mkMidiParser (awaiting_first k c), Some (event_of k c p1 b)).
Proof.
  intros Hd. unfold parse_byte. rewrite (data_byte_not_status b Hd).
  destruct k; reflexivity.
Qed.

Lemma parse_second_param_running_status_witness :
  Z.land 51 128 = 0 /\
  parse_byte (mkMidiParser (awaiting_second KControlChange 3 60)) 51
  = (mkMidiParser (awaiting_first KControlChange 3),
     Some (event_of KControlChange 3 60 51)).
Proof.
  split; [reflexivity|].
  apply (parse_second_param_running_status KControlChange 3 60 51).
  reflexivity.
Defined.

(** C2 (as stated, refuted): an unsupported status byte (here [0xA0]) in
    the middle of a Note-On keeps the stored note, and the next data byte
    still completes that Note-On. *)
Lemma unsupported_status_keeps_in_flight :
  let p := mkMidiParser (NoteOnNoteRecvd 2 27) in
  Z.land 160 128 = 128 /\
  stored_params (state (fst (parse_byte p 160))) = [27] /\
  snd (parse_byte (fst (parse_byte p 160)) 52) = Some (note_on 2 27 52).
Proof. repeat split; reflexivity. Qed.

(** C2 (amended): a status byte never yields an event; if its
    message-type nibble is 0x80, 0x90 or 0xB0 the in-flight message is
    discarded (the new state holds no parameter byte, only the channel
    [b & 0x0F]); for any other nibble the parser is left exactly as it
    was. *)
Theorem status_byte_discards_or_keeps (p : MidiParser) (b : Z) :
  Z.land b 128 = 128 ->
  snd (parse_byte p b) = None /\
  (supported_message (Z.land b 240) = true ->
     stored_params (state (fst (parse_byte p b))) = [] /\
     state_channel (state (fst (parse_byte p b))) = Some (Z.land b 15)) /\
  (supported_message (Z.land b 240) = false -> fst (parse_byte p b) = p).
Proof.
  intros Hs. split; [exact (parse_status_none p b Hs)|]. split.
  - intros Hm. unfold parse_byte. rewrite (status_byte_is_status b Hs).
    unfold supported_message in Hm. simpl.
    destruct (Z.land b 240 =? 128); [split; reflexivity|].
    destruct (Z.land b 240 =? 144); [split; reflexivity|].
    destruct (Z.land b 240 =? 176); [split; reflexivity | discriminate].
  - intros Hm. rewrite (parse_unsupported_status p b Hs Hm). reflexivity.
Qed.

Lemma status_byte_discards_or_keeps_witness :
  Z.land 160 128 = 128 /\
  snd (parse_byte (mkMidiParser (NoteOnNoteRecvd 2 27)) 160) = None /\
  (supported_message (Z.land 160 240) = true ->
     stored_params (state (fst (parse_byte (mkMidiParser (NoteOnNoteRecvd 2 27)) 160))) = [] /\
     state_channel (state (fst (parse_byte (mkMidiParser (NoteOnNoteRecvd 2 27)) 160)))
     = Some (Z.land 160 15)) /\
  (supported_message (Z.land 160 240) = false ->
     fst (parse_byte (mkMidiParser (NoteOnNoteRecvd 2 27)) 160)
     = mkMidiParser (NoteOnNoteRecvd 2 27)).
Proof.
  split; [reflexivity|].
  apply (status_byte_discards_or_keeps (mkMidiParser (NoteOnNoteRecvd 2 27)) 160).
  reflexivity.
Defined.

(** C3: [0x92, 0x76, 0x34, 0x33, 0x65] from a fresh parser yields
    NoteOn(2, 0x76, 0x34) at the third call and NoteOn(2, 0x33, 0x65) at the
    fifth, every other call returning [None] (running status). *)
Theorem note_on_running_status_sequence :
  outputs new [146; 118; 52; 51; 101]
  = [None; None; Some (note_on 2 118 52); None; Some (note_on 2 51 101)] /\
  snd (feed new [146; 118; 52; 51; 101])
  = [note_on 2 118 52; note_on 2 51 101].
Proof. split; reflexivity. Qed.

(** C4: [0x92, 0x1b, 0x82, 0x76, 0x34] from a fresh parser yields exactly
    one event, NoteOff(2, 0x76, 0x34); the interrupted Note-On is never
    emitted. *)
Theorem interrupted_note_on_discarded :
  outputs new [146; 27; 130; 118; 52]
  = [None; None; None; None; Some (note_off 2 118 52)] /\
  snd (feed new [146; 27; 130; 118; 52]) = [note_off 2 118 52].
Proof. split; reflexivity. Qed.

(** C5: a status byte always returns [None]; nibble 0x80, 0x90 or 0xB0
    moves the parser to awaiting-first-parameter of NoteOff, NoteOn or
    ControlChange with channel [b & 0x0F]. *)
Theorem status_byte_transitions (p : MidiParser) (b : Z) :
  Z.land b 128 = 128 ->
  snd (parse_byte p b) = None /\
  (Z.land b 240 = 128 ->
     fst (parse_byte p b) = mkMidiParser (awaiting_first KNoteOff (Z.land b 15))) /\
  (Z.land b 240 = 144 ->
     fst (parse_byte p b) = mkMidiParser (awaiting_first KNoteOn (Z.land b 15))) /\
  (Z.land b 240 = 176 ->
     fst (parse_byte p b) = mkMidiParser (awaiting_first KControlChange (Z.land b 15))).
Proof.
  intros Hs. split; [exact (parse_status_none p b Hs)|].
  unfold parse_byte. rewrite (status_byte_is_status b Hs). simpl.
  repeat split; intros Hm; rewrite Hm; reflexivity.
Qed.

Lemma status_byte_transitions_witness :
  Z.land 178 128 = 128 /\
  snd (parse_byte new 178) = None /\
  (Z.land 178 240 = 128 ->
     fst (parse_byte new 178) = mkMidiParser (awaiting_first KNoteOff (Z.land 178 15))) /\
  (Z.land 178 240 = 144 ->
     fst (parse_byte new 178) = mkMidiParser (awaiting_first KNoteOn (Z.land 178 15))) /\
  (Z.land 178 240 = 176 ->
     fst (parse_byte new 178) = mkMidiParser (awaiting_first KControlChange (Z.land 178 15))).
Proof.
  split; [reflexivity|].
  apply (status_byte_transitions new 178). reflexivity.
Defined.

(** C6: a data byte fed while [Idle] returns [None] and leaves [Idle]. *)
Theorem idle_data_byte_ignored (b : Z) :
  Z.land b 128 = 0 ->
  parse_byte (mkMidiParser Idle) b = (mkMidiParser Idle, None).
Proof.
  intros Hd. unfold parse_byte. rewrite (data_byte_not_status b Hd).
  reflexivity.
Qed.

Lemma idle_data_byte_ignored_witness :
  Z.land 120 128 = 0 /\
  parse_byte (mkMidiParser Idle) 120 = (mkMidiParser Idle, None).
Proof.
  split; [reflexivity|]. apply (idle_data_byte_ignored 120). reflexivity.
Defined.

(** C7: [parse_byte] is total: for every state and every byte it returns a
    new parser and either no event or exactly one event. *)
Theorem parse_byte_total (p : MidiParser) (b : Z) :
  exists p', parse_byte p b = (p', None) \/
             exists e, parse_byte p b = (p', Some e).
Proof.
  destruct (parse_byte p b) as [p' [e|]].
  - exists p'. right. exists e. reflexivity.
  - exists p'. left. reflexivity.
Qed.

(** C8: [is_status_byte b] is [true] exactly when [b & 0x80 == 0x80]. *)
Theorem is_status_byte_spec (b : Z) :
  is_status_byte b = true <-> Z.land b 128 = 128.
Proof. unfold is_status_byte. apply Z.eqb_eq. Qed.

(** C9: from a fresh parser, over any byte sequence, the reached state
    holds a channel in 0..15 (if any) and every emitted event carries a
    channel in 0..15. *)
Theorem reachable_channels_in_range (bytes : list Z) :
  (forall c, state_channel (state (fst (feed new bytes))) = Some c -> 0 <= c <= 15) /\
  Forall (fun e => 0 <= event_channel e <= 15) (snd (feed new bytes)).
Proof.
  apply feed_channel_ok. intros c Hc. discriminate.
Qed.

(** C10: an unsupported status byte is a strict no-op, so an in-flight
    message survives it; [0x92, 0x1b, 0xA0, 0x34] yields exactly
    NoteOn(2, 0x1b, 0x34). *)
Theorem unsupported_status_noop (p : MidiParser) (b : Z) :
  Z.land b 128 = 128 -> supported_message (Z.land b 240) = false ->
  parse_byte p b = (p, None) /\
  snd (feed new [146; 27; 160; 52]) = [note_on 2 27 52].
Proof.
  intros Hs Hu. split; [exact (parse_unsupported_status p b Hs Hu)|].
  reflexivity.
Qed.

Lemma unsupported_status_noop_witness :
  Z.land 224 128 = 128 /\ supported_message (Z.land 224 240) = false /\
  parse_byte (mkMidiParser (NoteOffRecvd 5)) 224 = (mkMidiParser (NoteOffRecvd 5), None) /\
  snd (feed new [146; 27; 160; 52]) = [note_on 2 27 52].
Proof.
  split; [reflexivity|]. split; [reflexivity|].
  apply (unsupported_status_noop (mkMidiParser (NoteOffRecvd 5)) 224);
    reflexivity.
Defined.

(** ** Further properties of the parser *)

Lemma in_all_bytes (b : Z) : 0 <= b < 256 -> In b all_bytes.
Proof.
  intros Hb. unfold all_bytes. apply in_map_iff. exists (Z.to_nat b).
  split; [lia|]. apply in_seq. lia.
Qed.

Lemma parse_first_data (k : Kind) (c d : Z) :
  is_status_byte d = false ->
  parse_byte (mkMidiParser (awaiting_first k c)) d
  = (mkMidiParser (awaiting_second k c d), None).
Proof. intros Hd. unfold parse_byte. rewrite Hd. destruct k; reflexivity. Qed.

Lemma parse_second_data (k : Kind) (c p1 d : Z) :
  is_status_byte d = false ->
  parse_byte (mkMidiParser (awaiting_second k c p1)) d
  = (mkMidiParser (awaiting_first k c), Some (event_of k c p1 d)).
Proof. intros Hd. unfold parse_byte. rewrite Hd. destruct k; reflexivity. Qed.

Lemma parse_starting_status (p : MidiParser) (b : Z) (k : Kind) :
  is_status_byte b = true -> message_kind (Z.land b 240) = Some k ->
  parse_byte p b = (mkMidiParser (awaiting_first k (Z.land b 15)), None).
Proof.
  intros Hs Hk. unfold parse_byte. rewrite Hs. unfold message_kind in Hk. simpl.
  destruct (Z.land b 240 =? 128); [injection Hk as <-; reflexivity|].
  destruct (Z.land b 240 =? 144); [injection Hk as <-; reflexivity|].
  destruct (Z.land b 240 =? 176); [injection Hk as <-; reflexivity|].
  discriminate.
Qed.

Lemma feed_running_status (ds : list Z) :
  Forall (fun d => is_status_byte d = false) ds ->
  (forall k c, snd (feed (mkMidiParser (awaiting_first k c)) ds)
               = pair_events k c ds) /\
  (forall k c p1, snd (feed (mkMidiParser (awaiting_second k c p1)) ds)
               = match ds with
                 | [] => []
                 | d :: rest => event_of k c p1 d :: pair_events k c rest
                 end).
Proof.
  induction ds as [| d rest IH]; intros Hds.
  - split; reflexivity.
  - inversion Hds as [| ? ? Hd Hrest]; subst.
    destruct (IH Hrest) as [IHf IHs]. split.
    + intros k c. simpl. rewrite (parse_first_data k c d Hd).
      pose proof (IHs k c d) as E.
      destruct (feed (mkMidiParser (awaiting_second k c d)) rest) as [p2 evs].
      simpl in *. rewrite E. destruct rest; reflexivity.
    + intros k c p1. simpl. rewrite (parse_second_data k c p1 d Hd).
      pose proof (IHf k c) as E.
      destruct (feed (mkMidiParser (awaiting_first k c)) rest) as [p2 evs].
      simpl in *. rewrite E. reflexivity.
Qed.

(** One [parse_byte] step emits an event only by consuming a stored
    parameter byte. *)
Lemma parse_byte_budget (p : MidiParser) (b : Z) :
  (2 * length (match snd (parse_byte p b) with Some e => [e] | None => [] end)
   + length (stored_params (state (fst (parse_byte p b))))
   <= 1 + length (stored_params (state p)))%nat.
Proof.
  unfold parse_byte. destruct (is_status_byte b).
  - simpl. destruct (Z.land b 240 =? 128); [simpl; lia|].
    destruct (Z.land b 240 =? 144); [simpl; lia|].
    destruct (Z.land b 240 =? 176); simpl; lia.
  - destruct (state p) eqn:Es; simpl; rewrite ?Es; simpl; lia.
Qed.

Lemma feed_budget (bs : list Z) :
  forall p,
  (2 * length (snd (feed p bs)) + length (stored_params (state (fst (feed p bs))))
   <= length bs + length (stored_params (state p)))%nat.
Proof.
  induction bs as [| b bs IH]; intros p; simpl; [lia|].
  pose proof (parse_byte_budget p b) as Hb.
  destruct (parse_byte p b) as [p1 o]. simpl in Hb.
  pose proof (IH p1) as Hr.
  destruct (feed p1 bs) as [p2 evs]. simpl in *.
  destruct o; simpl in *; lia.
Qed.

(** The parameter bytes stored in a state are never status bytes. *)
Definition params_data (p : MidiParser) : Prop :=
  Forall (fun x => is_status_byte x = false) (stored_params (state p)).

Lemma parse_byte_params_data (p : MidiParser) (b : Z) :
  params_data p ->
  params_data (fst (parse_byte p b)) /\
  (forall e, snd (parse_byte p b) = Some e ->
     Forall (fun x => is_status_byte x = false) (event_params e)).
Proof.
  unfold params_data. intros Hp. unfold parse_byte.
  destruct (is_status_byte b) eqn:Eb.
  - simpl.
    destruct (Z.land b 240 =? 128); [|destruct (Z.land b 240 =? 144);
      [|destruct (Z.land b 240 =? 176)]]; simpl;
      (split; [| intros e He; discriminate]); auto.
  - destruct (state p) eqn:Es; simpl in *; rewrite ?Es;
      (split; [| intros e He]); simpl; try discriminate; auto;
      try (injection He as <-; simpl; inversion Hp; auto).
Qed.

Lemma feed_params_data (bs : list Z) :
  forall p, params_data p ->
  Forall (fun e => Forall (fun x => is_status_byte x = false) (event_params e))
         (snd (feed p bs)).
Proof.
  induction bs as [| b bs IH]; intros p Hp; simpl; [constructor|].
  pose proof (parse_byte_params_data p b Hp) as [H1 He].
  destruct (parse_byte p b) as [p1 o]. simpl in H1, He.
  pose proof (IH p1 H1) as Hr.
  destruct (feed p1 bs) as [p2 evs]. simpl in *.
  destruct o as [e|]; [constructor; [apply He; reflexivity | exact Hr] | exact Hr].
Qed.

Lemma parse_byte_not_idle (p : MidiParser) (b : Z) :
  state p <> Idle -> state (fst (parse_byte p b)) <> Idle.
Proof.
  intros Hp. unfold parse_byte. destruct (is_status_byte b).
  - simpl. destruct (Z.land b 240 =? 128); [discriminate|].
    destruct (Z.land b 240 =? 144); [discriminate|].
    destruct (Z.land b 240 =? 176); [discriminate | exact Hp].
  - destruct (state p); simpl; try discriminate. exfalso; exact (Hp eq_refl).
Qed.

Lemma feed_not_idle (bs : list Z) :
  forall p, state p <> Idle -> state (fst (feed p bs)) <> Idle.
Proof.
  induction bs as [| b bs IH]; intros p Hp; simpl; [exact Hp|].
  pose proof (parse_byte_not_idle p b Hp) as H1.
  destruct (parse_byte p b) as [p1 o]. simpl in H1.
  pose proof (IH p1 H1) as H2.
  destruct (feed p1 bs) as [p2 evs]. exact H2.
Qed.

Lemma parse_idle_starting (b : Z) :
  is_starting_status b = true ->
  state (fst (parse_byte (mkMidiParser Idle) b)) <> Idle.
Proof.
  unfold is_starting_status, parse_byte, supported_message. intros H.
  destruct (is_status_byte b); [|discriminate]. simpl in *.
  destruct (Z.land b 240 =? 128); [discriminate|].
  destruct (Z.land b 240 =? 144); [discriminate|].
  destruct (Z.land b 240 =? 176); discriminate.
Qed.

Lemma parse_idle_not_starting (b : Z) :
  is_starting_status b = false ->
  parse_byte (mkMidiParser Idle) b = (mkMidiParser Idle, None).
Proof.
  unfold is_starting_status, parse_byte, supported_message. intros H.
  destruct (is_status_byte b); [|reflexivity]. simpl in *.
  destruct (Z.land b 240 =? 128); [discriminate|].
  destruct (Z.land b 240 =? 144); [discriminate|].
  destruct (Z.land b 240 =? 176); [discriminate | reflexivity].
Qed.

(** ** Extra properties *)

(** [split_message_and_channel] splits a byte into its high nibble (with
    the low four bits clear) and its low nibble (0..15), which add back up
    to the byte. *)
Theorem split_message_and_channel_recombine (b : Z) :
  0 <= b < 256 ->
  fst (split_message_and_channel b) + snd (split_message_and_channel b) = b /\
  Z.land (fst (split_message_and_channel b)) 15 = 0 /\
  0 <= snd (split_message_and_channel b) <= 15.
Proof.
  intros Hb.
  assert (Hall : forallb (fun x => andb (Z.land x 240 + Z.land x 15 =? x)
                                       (Z.land (Z.land x 240) 15 =? 0)) all_bytes
                 = true) by (vm_compute; reflexivity).
  rewrite forallb_forall in Hall.
  specialize (Hall b (in_all_bytes b Hb)).
  apply andb_prop in Hall as [H1 H2]. apply Z.eqb_eq in H1, H2.
  simpl. split; [exact H1|]. split; [exact H2|]. apply low_nibble_bound.
Qed.

Lemma split_message_and_channel_recombine_witness :
  (0 <= 145 < 256) /\
  fst (split_message_and_channel 145) + snd (split_message_and_channel 145) = 145 /\
  Z.land (fst (split_message_and_channel 145)) 15 = 0 /\
  0 <= snd (split_message_and_channel 145) <= 15.
Proof.
  split; [lia|]. apply (split_message_and_channel_recombine 145). lia.
Defined.

(** On a byte 0x00..0xFF, [is_status_byte] holds exactly for the values
    0x80 and above. *)
Theorem is_status_byte_threshold (b : Z) :
  0 <= b < 256 -> is_status_byte b = (128 <=? b).
Proof.
  intros Hb.
  assert (Hall : forallb (fun x => Bool.eqb (is_status_byte x) (128 <=? x))
                   all_bytes = true) by (vm_compute; reflexivity).
  rewrite forallb_forall in Hall.
  apply Bool.eqb_prop. exact (Hall b (in_all_bytes b Hb)).
Qed.

Lemma is_status_byte_threshold_witness :
  (0 <= 127 < 256) /\ is_status_byte 127 = (128 <=? 127).
Proof. split; [lia|]. apply (is_status_byte_threshold 127). lia. Defined.

(** From [Idle], a stream of data bytes only is dropped: no event, and the
    parser stays [Idle]. *)
Theorem idle_ignores_data_stream (ds : list Z) :
  Forall (fun d => is_status_byte d = false) ds ->
  feed (mkMidiParser Idle) ds = (mkMidiParser Idle, []).
Proof.
  induction ds as [| d ds IH]; intros Hds; [reflexivity|].
  inversion Hds as [| ? ? Hd Hrest]; subst. simpl.
  unfold parse_byte at 1. rewrite Hd. simpl. rewrite (IH Hrest). reflexivity.
Qed.

Lemma idle_ignores_data_stream_witness :
  Forall (fun d => is_status_byte d = false) [1; 127; 64] /\
  feed (mkMidiParser Idle) [1; 127; 64] = (mkMidiParser Idle, []).
Proof.
  split; [repeat constructor|]. apply idle_ignores_data_stream.
  repeat constructor.
Defined.

(** Running status over any run of data bytes: waiting for the first
    parameter of kind [k] on channel [c], the data bytes [d1 d2 d3 d4 ...]
    yield the events of kind [k] and channel [c] with parameters
    [(d1, d2), (d3, d4), ...]; an odd trailing byte yields nothing. *)
Theorem running_status_pairs (k : Kind) (c : Z) (ds : list Z) :
  Forall (fun d => is_status_byte d = false) ds ->
  snd (feed (mkMidiParser (awaiting_first k c)) ds) = pair_events k c ds.
Proof. intros Hds. exact (proj1 (feed_running_status ds Hds) k c). Qed.

Lemma running_status_pairs_witness :
  Forall (fun d => is_status_byte d = false) [60; 24; 67; 1; 5] /\
  snd (feed (mkMidiParser (awaiting_first KNoteOff 9)) [60; 24; 67; 1; 5])
  = pair_events KNoteOff 9 [60; 24; 67; 1; 5].
Proof.
  split; [repeat constructor|]. apply running_status_pairs.
  repeat constructor.
Defined.

(** Resynchronisation: whatever the parser's state, a Note-Off, Note-On or
    Control-Change status byte followed by data bytes yields exactly the
    running-status events of that kind on the byte's channel. *)
Theorem status_byte_resynchronises (p : MidiParser) (b : Z) (k : Kind)
    (ds : list Z) :
  is_status_byte b = true -> message_kind (Z.land b 240) = Some k ->
  Forall (fun d => is_status_byte d = false) ds ->
  snd (feed p (b :: ds)) = pair_events k (Z.land b 15) ds.
Proof.
  intros Hs Hk Hds. simpl. rewrite (parse_starting_status p b k Hs Hk).
  pose proof (running_status_pairs k (Z.land b 15) ds Hds) as E.
  destruct (feed (mkMidiParser (awaiting_first k (Z.land b 15))) ds).
  exact E.
Qed.

Lemma status_byte_resynchronises_witness :
  is_status_byte 131 = true /\ message_kind (Z.land 131 240) = Some KNoteOff /\
  Forall (fun d => is_status_byte d = false) [64; 0] /\
  snd (feed (mkMidiParser (NoteOnNoteRecvd 2 27)) [131; 64; 0])
  = pair_events KNoteOff (Z.land 131 15) [64; 0].
Proof.
  split; [reflexivity|]. split; [reflexivity|]. split; [repeat constructor|].
  apply (status_byte_resynchronises (mkMidiParser (NoteOnNoteRecvd 2 27))
           131 KNoteOff [64; 0]); [reflexivity | reflexivity | repeat constructor].
Defined.

(** From a fresh parser, [n] input bytes give at most [n / 2] events: each
    event takes two bytes. *)
Theorem events_at_most_half_of_bytes (bs : list Z) :
  (2 * length (snd (feed new bs)) <= length bs)%nat.
Proof. pose proof (feed_budget bs new) as H. simpl in H. lia. Qed.

(** From a fresh parser, both parameters of every emitted event are data
    bytes: a status byte never ends up inside an event. *)
Theorem event_params_are_data_bytes (bs : list Z) :
  Forall (fun e => Forall (fun x => is_status_byte x = false) (event_params e))
         (snd (feed new bs)).
Proof. apply feed_params_data. constructor. Qed.

(** Status bytes of an unsupported kind are invisible: removing them from
    any input leaves the final parser and the emitted events unchanged. *)
Theorem ignored_status_bytes_invisible (bs : list Z) :
  forall p, feed p bs = feed p (filter (fun b => negb (is_ignored_status b)) bs).
Proof.
  induction bs as [| b bs IH]; intros p; [reflexivity|].
  simpl. destruct (is_ignored_status b) eqn:E; simpl.
  - unfold is_ignored_status in E. apply andb_prop in E as [Hs Hu].
    apply Bool.negb_true_iff in Hu.
    assert (Hs' : Z.land b 128 = 128) by (apply Z.eqb_eq; exact Hs).
    rewrite (parse_unsupported_status p b Hs' Hu), IH.
    destruct (feed p (filter (fun b0 => negb (is_ignored_status b0)) bs)).
    reflexivity.
  - destruct (parse_byte p b) as [p1 o]. rewrite IH. reflexivity.
Qed.

(** From a fresh parser, the parser is [Idle] after an input exactly when
    the input holds no Note-Off, Note-On or Control-Change status byte:
    once a message has started, the parser never returns to [Idle]. *)
Theorem idle_until_starting_status (bs : list Z) :
  state (fst (feed new bs)) = Idle <->
  forallb (fun b => negb (is_starting_status b)) bs = true.
Proof.
  unfold new. induction bs as [| b bs IH]; [split; reflexivity|].
  simpl. destruct (is_starting_status b) eqn:E; simpl.
  - pose proof (parse_idle_starting b E) as H1.
    destruct (parse_byte (mkMidiParser Idle) b) as [p1 o]. simpl in H1.
    pose proof (feed_not_idle bs p1 H1) as H2.
    destruct (feed p1 bs) as [p2 evs]. simpl in *.
    split; [intros H; contradiction | discriminate].
  - rewrite (parse_idle_not_starting b E).
    destruct (feed (mkMidiParser Idle) bs) as [p2 evs]. exact IH.
Qed.

